(** * Monte Carlo leading-order generator of the Drell-Yan tutorial

    A shallow embedding of the three code cells of the tutorial notebook
    "Building a Monte Carlo generator":

    - [hadronic_ps_gen], the hadronic phase-space sampler;
    - [photon_photon_matrix_element], the squared matrix element;
    - [fill_grid] and [generate_grid], the Monte Carlo sum that fills the
      interpolation grid.

    Python floats are idealised as real numbers ([R]): [pow] on a positive
    base is [Rpower], [np.log] is [ln], [np.sqrt] is [sqrt], [math.pi] is
    [PI].  Where rounding decides whether an exception is raised (the
    argument of [math.acosh]) the rounded value is a parameter, and the
    statements concerned are replayed in binary64.  The bin limits, which
    the code writes as decimal literals, are rationals ([Q]) so that
    [np.arange] can be evaluated. *)

From Stdlib Require Import PrimFloat.
From Stdlib Require Import Reals Lra Lia List ZArith Bool.
From Stdlib Require Import QArith Qround Qreals.
Import ListNotations.

Local Open Scope R_scope.
Set Warnings "-inexact-float".

(** ** The phase-space sampler *)

(** The list [[s, t, u, x1, x2, jacobian]] returned by the sampler. *)
Record ps_point : Type := mk_ps_point {
  ps_s : R;
  ps_t : R;
  ps_u : R;
  ps_x1 : R;
  ps_x2 : R;
  ps_jacobian : R
}.

(** [cos_theta = 2.0 * r3 - 1.0] *)
Definition cos_theta (r3 : R) : R := 2 * r3 - 1.

(** The body of [hadronic_ps_gen] after the three calls of
    [np.random.uniform()], whose results are [r1], [r2] and [r3].  The
    statements follow the source line by line; the three updates of
    [jacobian] are kept as successive bindings. *)
Definition hadronic_ps_point (mmin mmax r1 r2 r3 : R) : ps_point :=
  let smin := mmin * mmin in
  let smax := mmax * mmax in
  let tau0 := smin / smax in
  let tau := Rpower tau0 r1 in
  let y := Rpower tau (1 - r2) in
  let x1 := y in
  let x2 := tau / y in
  let s := tau * smax in
  let jacobian := tau * ln tau0 * ln tau0 * r1 in
  let cos_theta := cos_theta r3 in
  let jacobian := jacobian * 2 in
  let t := -0.5 * s * (1 - cos_theta) in
  let u := -0.5 * s * (1 + cos_theta) in
  let jacobian := jacobian * (2 * PI) in
  mk_ps_point s t u x1 x2 jacobian.

(** [tau0 = smin / smax], the lower end of the range of [tau]. *)
Definition tau0_of (mmin mmax : R) : R := (mmin * mmin) / (mmax * mmax).

(** A draw of [np.random.uniform()] lies in the half-open unit interval. *)
Definition unit_draw (r : R) : Prop := 0 <= r < 1.

(** The caller's obligation on the energies. *)
Definition valid_energies (mmin mmax : R) : Prop := 0 < mmin < mmax.

(** ** The squared matrix element *)

(** A Python value as far as the code needs one: [None] or a float. *)
Inductive pyvalue : Type :=
| PyNone
| PyFloat (x : R).

(** The function as the notebook has it: [alpha0] is bound, and the
    [return] that follows carries a comment only ("INSERT HERE THE SQUARED
    MATRIX ELEMENT"), so that [None] is returned for every argument. *)
Definition photon_photon_matrix_element (s t u : R) : pyvalue :=
  let alpha0 := 1 / 137.03599911 in
  PyNone.

(** ** numpy scalars, warnings and exceptions *)

(** The quotient [0.5 * mll / ptl] of [fill_grid] is a division of two
    [np.float64] scalars: a zero divisor gives an infinity (or [nan] for
    [0 / 0]) together with a [RuntimeWarning], not an exception.  Its
    result and what is computed from it may therefore be infinite. *)
Inductive npfloat : Type :=
| Finite (x : R)
| PosInf
| NegInf
| NaN.

Inductive warning : Type :=
| DivideByZero   (* "divide by zero encountered" *)
| InvalidValue.  (* "invalid value encountered" *)

Inductive exception : Type :=
| ValueError     (* "math domain error" of [math.acosh] *)
| TypeError.     (* "unsupported operand type(s) for *" *)

Definition Rltb (x y : R) : bool := if Rlt_dec x y then true else false.
Definition Rleb (x y : R) : bool := if Rle_dec x y then true else false.

(** [a / b] on [np.float64] scalars with finite operands; [fdiv] is the
    division by a divisor that is not zero. *)
Definition np_divide (fdiv : R -> R -> R) (a b : R) : npfloat * list warning :=
  if Req_dec_T b 0 then
    if Req_dec_T a 0 then (NaN, [InvalidValue])
    else if Rlt_dec 0 a then (PosInf, [DivideByZero])
    else (NegInf, [DivideByZero])
  else (Finite (fdiv a b), []).

(** The inverse hyperbolic cosine on [[1, +oo)]. *)
Definition acosh (x : R) : R := ln (x + sqrt (x * x - 1)).

(** [math.acosh]: raises [ValueError] below 1, maps [inf] to [inf]. *)
Definition math_acosh (x : npfloat) : exception + npfloat :=
  match x with
  | Finite v => if Rlt_dec v 1 then inl ValueError else inr (Finite (acosh v))
  | PosInf => inr PosInf
  | NegInf => inl ValueError
  | NaN => inr NaN
  end.

(** [y + x] and [y - x] for a finite [y]. *)
Definition np_add (y : R) (x : npfloat) : npfloat :=
  match x with
  | Finite v => Finite (y + v)
  | PosInf => PosInf
  | NegInf => NegInf
  | NaN => NaN
  end.

Definition np_sub (y : R) (x : npfloat) : npfloat :=
  match x with
  | Finite v => Finite (y - v)
  | PosInf => NegInf
  | NegInf => PosInf
  | NaN => NaN
  end.

Definition np_abs (x : npfloat) : npfloat :=
  match x with
  | Finite v => Finite (Rabs v)
  | PosInf | NegInf => PosInf
  | NaN => NaN
  end.

(** [x * v] for a float [x]: a [TypeError] when [v] is [None]. *)
Definition float_times (x : R) (v : pyvalue) : exception + R :=
  match v with
  | PyFloat y => inr (x * y)
  | PyNone => inl TypeError
  end.

(** The truth value of a tuple: false exactly when it is empty. *)
Definition tuple_truth {A : Type} (t : list A) : bool :=
  match t with
  | [] => false
  | _ :: _ => true
  end.

(** [hbarc2 = 389379372.1], in GeV^2 pbarn. *)
Definition hbarc2 : R := 389379372.1.

(** ** Observables and cuts *)

(** The values bound under "build observables" in [fill_grid]. *)
Record observables : Type := mk_observables {
  ptl : R;
  mll : R;
  yll : R;
  ylp : npfloat;
  ylm : npfloat
}.

(** [ptl = np.sqrt((t * u / s))] *)
Definition ptl_of (p : ps_point) : R := sqrt (ps_t p * ps_u p / ps_s p).

(** [mll = np.sqrt(s)] *)
Definition mll_of (p : ps_point) : R := sqrt (ps_s p).

(** [yll = 0.5 * np.log(x1 / x2)] *)
Definition yll_of (p : ps_point) : R := 0.5 * ln (ps_x1 p / ps_x2 p).

(** The condition of the [if] that guards [continue] in [fill_grid]: as
    the notebook has it the parentheses hold a comment only ("INSERT HERE
    THE PHASE SPACE CUTS"), which Python reads as the empty tuple. *)
Definition cut_condition : list bool := [].

(** ** The interpolation grid *)

(** The grid library is an external collaborator.  A grid is represented
    by what the code hands to it: the bin limits given to [Grid.create]
    and the sequence of [fill] calls.  Limits are bin edges, [n + 1] of
    them for [n] bins: the plotting cell of the notebook pairs the 24
    values of [np.arange(0.0, 2.4, 0.1)] with the convolved bins extended
    by one repeated value. *)
Record fill_call : Type := mk_fill_call {
  f_x1 : R;
  f_x2 : R;
  f_q2 : R;
  f_order : nat;
  f_observable : R;
  f_lumi : nat;
  f_weight : R
}.

Record Grid : Type := mk_Grid {
  bin_limits : list Q;
  fills : list fill_call
}.

Definition Grid_create (bins : list Q) : Grid := mk_Grid bins [].

Definition Grid_fill (grid : Grid) (x1 x2 q2 : R) (order : nat)
    (observable : R) (lumi : nat) (weight : R) : Grid :=
  mk_Grid (bin_limits grid)
          (fills grid ++ [mk_fill_call x1 x2 q2 order observable lumi weight]).

(** [n + 1] limits delimit [n] bins. *)
Definition Grid_bins (grid : Grid) : nat := pred (length (bin_limits grid)).

(** Bin [i] is the half-open interval between limits [i] and [i + 1]. *)
Definition in_bin (limits : list Q) (i : nat) (x : R) : bool :=
  Rleb (Q2R (nth i limits 0%Q)) x && Rltb x (Q2R (nth (S i) limits 0%Q)).

Definition bin_content (grid : Grid) (i : nat) : R :=
  fold_right Rplus 0
    (map f_weight
       (filter (fun c => in_bin (bin_limits grid) i (f_observable c))
               (fills grid))).

(** One value per bin, in bin order. *)
Definition histogram (grid : Grid) : list R :=
  map (bin_content grid) (seq 0 (Grid_bins grid)).

(** [np.arange(start, stop, step)]: [ceil((stop - start) / step)] values
    [start + i * step]. *)
Definition np_arange (start stop step : Q) : list Q :=
  map (fun i => (start + inject_Z (Z.of_nat i) * step)%Q)
      (seq 0 (Z.to_nat (Qceiling ((stop - start) / step)))).

(** The quotient whose ceiling is the number of limits, as numpy
    computes it in binary64 for [np.arange(0, 2.4, 0.1)]. *)
Definition arange_quotient_binary64 : float := ((2.4 - 0) / 0.1)%float.

(** ** The Monte Carlo sum *)

Section MonteCarlo.

(** The state of numpy's global generator and [np.random.uniform()]. *)
Variable rng_state : Type.
Variable uniform : rng_state -> R * rng_state.

(** The quotient [0.5 * mll / ptl] as binary64 delivers it for a divisor
    that is not zero.  The exact quotient is never below 1, but rounding
    in [np.sqrt] and in the division can bring the computed one below 1,
    where [math.acosh] raises; the computed quotient is therefore a
    parameter, of which the exact division [Rdiv] is one instance. *)
Variable fdiv : R -> R -> R.

(** The outcome of a computation: a value or an exception, the
    generator afterwards, and the warnings emitted. *)
Record run (A : Type) : Type := mk_run {
  value : exception + A;
  rng_after : rng_state;
  warnings : list warning
}.
Arguments mk_run {A}.
Arguments value {A}.
Arguments rng_after {A}.
Arguments warnings {A}.

Definition M (A : Type) : Type := rng_state -> run A.

Definition ret {A} (a : A) : M A := fun g => mk_run (inr a) g [].

Definition bind {A B} (m : M A) (f : A -> M B) : M B :=
  fun g =>
    let r := m g in
    match value r with
    | inl e => mk_run (inl e) (rng_after r) (warnings r)
    | inr a =>
        let r' := f a (rng_after r) in
        mk_run (value r') (rng_after r') (warnings r ++ warnings r')
    end.

Notation "x <- c1 ;; c2" := (bind c1 (fun x => c2))
  (at level 61, c1 at next level, right associativity).

Definition np_random_uniform : M R :=
  fun g => mk_run (inr (fst (uniform g))) (snd (uniform g)) [].

(** A value with its warnings, and a value or an exception. *)
Definition warned {A} (r : A * list warning) : M A :=
  fun g => mk_run (inr (fst r)) g (snd r).

Definition raised {A} (r : exception + A) : M A :=
  fun g => mk_run r g [].

Definition hadronic_ps_gen (mmin mmax : R) : M ps_point :=
  r1 <- np_random_uniform ;;
  r2 <- np_random_uniform ;;
  r3 <- np_random_uniform ;;
  ret (hadronic_ps_point mmin mmax r1 r2 r3).

(** The point of the trial that starts with the generator in state [g],
    and the generator after that trial's three draws. *)
Definition drawn_point (g : rng_state) : ps_point :=
  let g1 := snd (uniform g) in
  let g2 := snd (uniform g1) in
  hadronic_ps_point 10 7000
    (fst (uniform g)) (fst (uniform g1)) (fst (uniform g2)).

Definition after_trial (g : rng_state) : rng_state :=
  snd (uniform (snd (uniform (snd (uniform g))))).

(** The statements under "build observables".  The quotient
    [0.5 * mll / ptl] is written, and evaluated, twice. *)
Definition build_observables (p : ps_point) : M observables :=
  let ptl := ptl_of p in
  let mll := mll_of p in
  let yll := yll_of p in
  q <- warned (np_divide fdiv (0.5 * mll) ptl) ;;
  a <- raised (math_acosh q) ;;
  let ylp := np_abs (np_add yll a) in
  q' <- warned (np_divide fdiv (0.5 * mll) ptl) ;;
  a' <- raised (math_acosh q') ;;
  let ylm := np_abs (np_sub yll a') in
  ret (mk_observables ptl mll yll ylp ylm).

(** One iteration of the loop of [fill_grid].  [continue] leaves the grid
    as it is; the product [jacobian * photon_photon_matrix_element(...)]
    is the one place where the returned value is used. *)
Definition fill_trial (grid : Grid) (calls : Z) : M Grid :=
  p <- hadronic_ps_gen 10 7000 ;;
  o <- build_observables p ;;
  let jacobian := ps_jacobian p * (hbarc2 / IZR calls) in
  if tuple_truth cut_condition then ret grid
  else
    weight <- raised (float_times jacobian
                        (photon_photon_matrix_element (ps_s p) (ps_u p) (ps_t p))) ;;
    let q2 := 90 * 90 in
    ret (Grid_fill grid (ps_x1 p) (ps_x2 p) q2 0 (Rabs (yll o)) 0 weight).

(** [for _ in range(calls)], with [n] iterations left. *)
Fixpoint fill_loop (n : nat) (grid : Grid) (calls : Z) : M Grid :=
  match n with
  | O => ret grid
  | S n' => grid' <- fill_trial grid calls ;; fill_loop n' grid' calls
  end.

Definition fill_grid (grid : Grid) (calls : Z) : M Grid :=
  fill_loop (Z.to_nat calls) grid calls.

Definition generate_grid (calls : Z) : M Grid :=
  let bins := np_arange 0 2.4 0.1 in
  let grid := Grid_create bins in
  fill_grid grid calls.

End MonteCarlo.

Arguments mk_run {rng_state A}.
Arguments value {rng_state A}.
Arguments rng_after {rng_state A}.
Arguments warnings {rng_state A}.
Arguments ret {rng_state A}.
Arguments bind {rng_state A B}.
Arguments warned {rng_state A}.
Arguments raised {rng_state A}.
Arguments np_random_uniform {rng_state}.
Arguments hadronic_ps_gen {rng_state}.
Arguments drawn_point {rng_state}.
Arguments after_trial {rng_state}.
Arguments build_observables {rng_state}.
Arguments fill_trial {rng_state}.
Arguments fill_loop {rng_state}.
Arguments fill_grid {rng_state}.
Arguments generate_grid {rng_state}.

(** ** The observables in binary64 *)

(** The statements of [hadronic_ps_gen] and [fill_grid] that lead from
    [s] and [r3] to the argument of [math.acosh], with the operations of
    binary64: [cos_theta], [t], [u], [ptl], [mll] and
    [0.5 * mll / ptl]. *)
Definition cos_theta64 (r3 : float) : float := (2 * r3 - 1)%float.

Definition t64 (s r3 : float) : float :=
  (-0.5 * s * (1 - cos_theta64 r3))%float.

Definition u64 (s r3 : float) : float :=
  (-0.5 * s * (1 + cos_theta64 r3))%float.

Definition ptl64 (s r3 : float) : float :=
  PrimFloat.sqrt (t64 s r3 * u64 s r3 / s)%float.

Definition mll64 (s : float) : float := PrimFloat.sqrt s.

Definition acosh_argument64 (s r3 : float) : float :=
  (0.5 * mll64 s / ptl64 s r3)%float.

(** ** Auxiliary notions for the statements *)

(** A stand-in for the generator, used to run the model on concrete
    draws: the state counts the draws, the third draw is 0 and every
    other draw is 1/2. *)
Definition counting_uniform (n : nat) : R * nat :=
  (if Nat.eqb n 2 then 0 else 1 / 2, S n).

(** * Properties *)

(** ** Facts about the sampler *)

Lemma exp_nonpos_le_1 (x : R) : x <= 0 -> exp x <= 1.
Proof.
  intros [Hlt | ->].
  - rewrite <- exp_0. left. now apply exp_increasing.
  - rewrite exp_0. lra.
Qed.

Lemma exp_le_mono (x y : R) : x <= y -> exp x <= exp y.
Proof.
  intros [Hlt | ->]; [left; now apply exp_increasing | lra].
Qed.

Section SamplerFacts.

Variables mmin mmax : R.
Hypothesis Hvalid : valid_energies mmin mmax.

Local Abbreviation tau0 := (tau0_of mmin mmax).
Local Abbreviation L := (ln (tau0_of mmin mmax)).

Lemma smax_pos : 0 < mmax * mmax.
Proof. destruct Hvalid; nra. Qed.

Lemma tau0_pos : 0 < tau0.
Proof.
  unfold tau0_of. apply Rdiv_lt_0_compat; [destruct Hvalid; nra | exact smax_pos].
Qed.

Lemma tau0_lt_1 : tau0 < 1.
Proof.
  unfold tau0_of. pose proof smax_pos as Hs.
  apply (Rmult_lt_reg_r (mmax * mmax)); [exact Hs|].
  unfold Rdiv. rewrite Rmult_assoc, Rinv_l by lra.
  destruct Hvalid; nra.
Qed.

Lemma ln_tau0_neg : L < 0.
Proof.
  rewrite <- ln_1.
  apply ln_increasing; [exact tau0_pos | exact tau0_lt_1].
Qed.

(** The point in closed form: every component as an exponential of
    [L = ln tau0]. *)
Lemma ps_x1_exp (r1 r2 r3 : R) :
  ps_x1 (hadronic_ps_point mmin mmax r1 r2 r3) = exp ((1 - r2) * (r1 * L)).
Proof.
  unfold hadronic_ps_point, tau0_of; simpl. unfold Rpower. now rewrite ln_exp.
Qed.

Lemma ps_x2_exp (r1 r2 r3 : R) :
  ps_x2 (hadronic_ps_point mmin mmax r1 r2 r3) = exp (r2 * (r1 * L)).
Proof.
  unfold hadronic_ps_point; simpl. unfold Rpower. rewrite ln_exp.
  unfold tau0_of, Rdiv. rewrite <- exp_Ropp, <- exp_plus.
  f_equal. ring.
Qed.

Lemma ps_s_exp (r1 r2 r3 : R) :
  ps_s (hadronic_ps_point mmin mmax r1 r2 r3) = exp (r1 * L) * (mmax * mmax).
Proof. reflexivity. Qed.

Lemma ps_s_pos (r1 r2 r3 : R) :
  0 < ps_s (hadronic_ps_point mmin mmax r1 r2 r3).
Proof.
  rewrite ps_s_exp. apply Rmult_lt_0_compat; [apply exp_pos | exact smax_pos].
Qed.

Lemma ps_jacobian_closed (r1 r2 r3 : R) :
  ps_jacobian (hadronic_ps_point mmin mmax r1 r2 r3)
  = exp (r1 * L) * (L * L) * r1 * (4 * PI).
Proof.
  unfold hadronic_ps_point; simpl. unfold Rpower, tau0_of. ring.
Qed.

Lemma ps_t_closed (r1 r2 r3 : R) :
  ps_t (hadronic_ps_point mmin mmax r1 r2 r3)
  = - (ps_s (hadronic_ps_point mmin mmax r1 r2 r3) * (1 - r3)).
Proof. unfold hadronic_ps_point, cos_theta; simpl. lra. Qed.

Lemma ps_u_closed (r1 r2 r3 : R) :
  ps_u (hadronic_ps_point mmin mmax r1 r2 r3)
  = - (ps_s (hadronic_ps_point mmin mmax r1 r2 r3) * r3).
Proof. unfold hadronic_ps_point, cos_theta; simpl. lra. Qed.

End SamplerFacts.

(** The sampler proper: three draws from the generator, then the point. *)
Lemma hadronic_ps_gen_run (rng_state : Type)
    (uniform : rng_state -> R * rng_state) (mmin mmax : R) (g : rng_state) :
  let g1 := snd (uniform g) in
  let g2 := snd (uniform g1) in
  hadronic_ps_gen uniform mmin mmax g
  = mk_run (inr (hadronic_ps_point mmin mmax (fst (uniform g))
                   (fst (uniform g1)) (fst (uniform g2))))
           (snd (uniform g2)) [].
Proof. reflexivity. Qed.

(** C1.  For valid energies and draws in [[0,1)], the sampler returns
    [t = -0.5 s (1 - cos_theta)] and [u = -0.5 s (1 + cos_theta)], and
    [s + t + u = 0] holds exactly (over the reals). *)
Theorem hadronic_ps_gen_mandelstam (mmin mmax r1 r2 r3 : R) :
  valid_energies mmin mmax ->
  unit_draw r1 -> unit_draw r2 -> unit_draw r3 ->
  let p := hadronic_ps_point mmin mmax r1 r2 r3 in
  ps_t p = -0.5 * ps_s p * (1 - cos_theta r3)
  /\ ps_u p = -0.5 * ps_s p * (1 + cos_theta r3)
  /\ ps_s p + ps_t p + ps_u p = 0.
Proof.
  intros _ _ _ _ p. subst p. unfold hadronic_ps_point; simpl.
  repeat split; lra.
Qed.

Lemma hadronic_ps_gen_mandelstam_witness :
  (valid_energies 10 7000 /\ unit_draw (1/2))
  /\ let p := hadronic_ps_point 10 7000 (1/2) (1/2) (1/2) in
     ps_s p + ps_t p + ps_u p = 0.
Proof.
  assert (Hv : valid_energies 10 7000) by (unfold valid_energies; lra).
  assert (Hr : unit_draw (1/2)) by (unfold unit_draw; lra).
  split; [split; assumption|].
  apply (hadronic_ps_gen_mandelstam 10 7000 (1/2) (1/2) (1/2) Hv Hr Hr Hr).
Defined.

(** C4, as the code has it.  The jacobian carries the factor [r1]: it is
    never negative, it is zero at [r1 = 0] and strictly positive exactly
    when [r1 > 0]. *)
Theorem hadronic_ps_gen_jacobian_sign (mmin mmax r1 r2 r3 : R) :
  valid_energies mmin mmax ->
  unit_draw r1 -> unit_draw r2 -> unit_draw r3 ->
  let p := hadronic_ps_point mmin mmax r1 r2 r3 in
  let tau0 := tau0_of mmin mmax in
  ps_jacobian p = Rpower tau0 r1 * ln tau0 * ln tau0 * r1 * 2 * (2 * PI)
  /\ 0 <= ps_jacobian p
  /\ (0 < ps_jacobian p <-> 0 < r1).
Proof.
  intros Hv [H1 _] _ _ p tau0. subst p tau0.
  pose proof (ln_tau0_neg mmin mmax Hv) as HL.
  pose proof PI_RGT_0 as Hpi.
  split; [reflexivity|].
  rewrite ps_jacobian_closed.
  set (L := ln (tau0_of mmin mmax)) in *.
  assert (Hc : 0 < exp (r1 * L) * (L * L) * (4 * PI)).
  { assert (0 < L * L) by nra.
    apply Rmult_lt_0_compat; [apply Rmult_lt_0_compat|]; try lra.
    apply exp_pos. }
  set (c := exp (r1 * L) * (L * L) * (4 * PI)) in *.
  replace (exp (r1 * L) * (L * L) * r1 * (4 * PI)) with (c * r1)
    by (unfold c; ring).
  split; [nra|]. split; intros; nra.
Qed.

Lemma hadronic_ps_gen_jacobian_sign_witness :
  (valid_energies 10 7000 /\ unit_draw (1/2))
  /\ 0 < ps_jacobian (hadronic_ps_point 10 7000 (1/2) (1/2) (1/2)).
Proof.
  assert (Hv : valid_energies 10 7000) by (unfold valid_energies; lra).
  assert (Hr : unit_draw (1/2)) by (unfold unit_draw; lra).
  split; [split; assumption|].
  apply (hadronic_ps_gen_jacobian_sign 10 7000 (1/2) (1/2) (1/2) Hv Hr Hr Hr).
  lra.
Defined.

(** C4 as stated fails: at the draw [r1 = 0], which lies in [[0,1)], the
    jacobian is zero. *)
Lemma hadronic_ps_gen_jacobian_zero :
  valid_energies 10 7000 /\ unit_draw 0 /\ unit_draw (1/2)
  /\ ps_jacobian (hadronic_ps_point 10 7000 0 (1/2) (1/2)) = 0
  /\ ~ 0 < ps_jacobian (hadronic_ps_point 10 7000 0 (1/2) (1/2)).
Proof.
  assert (E : ps_jacobian (hadronic_ps_point 10 7000 0 (1/2) (1/2)) = 0).
  { unfold hadronic_ps_point; simpl. ring. }
  unfold valid_energies, unit_draw. rewrite E.
  repeat split; lra.
Qed.

(** C5.  For valid energies and draws in [[0,1)], both momentum fractions
    lie in [(0,1]] and their product lies in [[mmin^2/mmax^2, 1]]. *)
Theorem hadronic_ps_gen_fractions (mmin mmax r1 r2 r3 : R) :
  valid_energies mmin mmax ->
  unit_draw r1 -> unit_draw r2 ->
  let p := hadronic_ps_point mmin mmax r1 r2 r3 in
  0 < ps_x1 p <= 1
  /\ 0 < ps_x2 p <= 1
  /\ (mmin * mmin) / (mmax * mmax) <= ps_x1 p * ps_x2 p <= 1.
Proof.
  intros Hv [H1 H1'] [H2 H2'] p. subst p.
  pose proof (ln_tau0_neg mmin mmax Hv) as HL.
  pose proof (tau0_pos mmin mmax Hv) as Hpos.
  rewrite ps_x1_exp, ps_x2_exp by assumption.
  rewrite <- exp_plus.
  change (mmin * mmin / (mmax * mmax)) with (tau0_of mmin mmax).
  set (L := ln (tau0_of mmin mmax)) in *.
  assert (HrL : r1 * L <= 0) by nra.
  repeat split; try apply exp_pos.
  - apply exp_nonpos_le_1. nra.
  - apply exp_nonpos_le_1. nra.
  - rewrite <- (exp_ln (tau0_of mmin mmax)) at 1 by assumption.
    fold L. apply exp_le_mono. nra.
  - apply exp_nonpos_le_1. nra.
Qed.

Lemma hadronic_ps_gen_fractions_witness :
  (valid_energies 10 7000 /\ unit_draw (1/2))
  /\ 0 < ps_x1 (hadronic_ps_point 10 7000 (1/2) (1/2) (1/2)) <= 1.
Proof.
  assert (Hv : valid_energies 10 7000) by (unfold valid_energies; lra).
  assert (Hr : unit_draw (1/2)) by (unfold unit_draw; lra).
  split; [split; assumption|].
  apply (hadronic_ps_gen_fractions 10 7000 (1/2) (1/2) (1/2) Hv Hr Hr).
Defined.

(** C10.  [cos_theta] ranges over [[-1,1)], so [t] is strictly negative
    for every draw; at [r3 = 0], where [cos_theta = -1], the sampler
    returns [u = 0] and the transverse momentum [sqrt(t u / s)] is 0. *)
Theorem hadronic_ps_gen_collinear (mmin mmax r1 r2 : R) :
  valid_energies mmin mmax ->
  unit_draw r1 -> unit_draw r2 ->
  (forall r3, unit_draw r3 ->
     -1 <= cos_theta r3 < 1
     /\ ps_t (hadronic_ps_point mmin mmax r1 r2 r3) < 0)
  /\ unit_draw 0
  /\ cos_theta 0 = -1
  /\ ps_u (hadronic_ps_point mmin mmax r1 r2 0) = 0
  /\ ptl_of (hadronic_ps_point mmin mmax r1 r2 0) = 0.
Proof.
  intros Hv _ _.
  assert (Hu : ps_u (hadronic_ps_point mmin mmax r1 r2 0) = 0).
  { rewrite ps_u_closed. ring. }
  split; [|split; [|split; [|split]]].
  - intros r3 [H3 H3']. unfold cos_theta. split; [lra|].
    rewrite ps_t_closed. pose proof (ps_s_pos mmin mmax Hv r1 r2 r3). nra.
  - unfold unit_draw; lra.
  - unfold cos_theta; lra.
  - exact Hu.
  - unfold ptl_of. rewrite Hu.
    replace (_ * 0 / _) with 0 by (unfold Rdiv; ring).
    apply sqrt_0.
Qed.

Lemma hadronic_ps_gen_collinear_witness :
  (valid_energies 10 7000 /\ unit_draw (1/2))
  /\ ps_u (hadronic_ps_point 10 7000 (1/2) (1/2) 0) = 0.
Proof.
  assert (Hv : valid_energies 10 7000) by (unfold valid_energies; lra).
  assert (Hr : unit_draw (1/2)) by (unfold unit_draw; lra).
  split; [split; assumption|].
  apply (hadronic_ps_gen_collinear 10 7000 (1/2) (1/2) Hv Hr Hr).
Defined.

(** ** Facts about the matrix element *)

(** C2, as the code has it.  The evaluator returns [None] for every
    argument, and so at [s = 100], [t = -40], [u = -60]: it returns no
    float there, and not the value of the formula. *)
Theorem photon_photon_matrix_element_returns_none :
  (forall s t u, photon_photon_matrix_element s t u = PyNone)
  /\ photon_photon_matrix_element 100 (-40) (-60) = PyNone
  /\ forall x, photon_photon_matrix_element 100 (-40) (-60) <> PyFloat x.
Proof.
  split; [|split].
  - intros s t u. reflexivity.
  - reflexivity.
  - intros x H. unfold photon_photon_matrix_element in H. discriminate H.
Qed.


(** ** Facts about the observables *)

Lemma valid_10_7000 : valid_energies 10 7000.
Proof. unfold valid_energies; lra. Qed.

Section ObservableFacts.

Variables mmin mmax r1 r2 r3 : R.
Hypothesis Hvalid : valid_energies mmin mmax.
Hypothesis Hr3 : unit_draw r3.

Local Abbreviation p := (hadronic_ps_point mmin mmax r1 r2 r3).

Lemma tu_over_s : ps_t p * ps_u p / ps_s p = ps_s p * (r3 * (1 - r3)).
Proof.
  pose proof (ps_s_pos mmin mmax Hvalid r1 r2 r3) as Hs.
  rewrite ps_t_closed, ps_u_closed. field. lra.
Qed.

Lemma ptl_of_sq : ptl_of p * ptl_of p = ps_s p * (r3 * (1 - r3)).
Proof.
  pose proof (ps_s_pos mmin mmax Hvalid r1 r2 r3) as Hs.
  unfold ptl_of. rewrite sqrt_sqrt; [apply tu_over_s|].
  rewrite tu_over_s. destruct Hr3.
  apply Rmult_le_pos; [lra | nra].
Qed.

Lemma mll_of_sq : mll_of p * mll_of p = ps_s p.
Proof.
  pose proof (ps_s_pos mmin mmax Hvalid r1 r2 r3) as Hs.
  unfold mll_of. apply sqrt_sqrt. lra.
Qed.

Lemma mll_of_pos : 0 < mll_of p.
Proof.
  unfold mll_of. apply sqrt_lt_R0. exact (ps_s_pos mmin mmax Hvalid r1 r2 r3).
Qed.

Lemma ptl_of_nonneg : 0 <= ptl_of p.
Proof. unfold ptl_of. apply sqrt_pos. Qed.

(** The transverse momentum never exceeds half the invariant mass. *)
Lemma ptl_of_zero_iff : ptl_of p = 0 <-> r3 = 0.
Proof.
  pose proof ptl_of_sq as Hp.
  pose proof (ps_s_pos mmin mmax Hvalid r1 r2 r3) as Hs.
  destruct Hr3 as [H0 H1]. split; intros E.
  - rewrite E, Rmult_0_l in Hp. symmetry in Hp.
    apply Rmult_integral in Hp as [Hp | Hp]; [lra|].
    apply Rmult_integral in Hp as [Hp | Hp]; lra.
  - assert (Hz : ps_s p * (r3 * (1 - r3)) = 0) by (rewrite E at 2; ring).
    rewrite Hz in Hp.
    apply Rmult_integral in Hp as [Hp | Hp]; exact Hp.
Qed.

Lemma ps_t_neg : ps_t p < 0.
Proof.
  pose proof (ps_s_pos mmin mmax Hvalid r1 r2 r3) as Hs.
  rewrite ps_t_closed. destruct Hr3.
  assert (0 < ps_s p * (1 - r3)) by (apply Rmult_lt_0_compat; lra). lra.
Qed.

Lemma ps_u_neg : ptl_of p <> 0 -> ps_u p < 0.
Proof.
  intros Hne.
  pose proof (ps_s_pos mmin mmax Hvalid r1 r2 r3) as Hs.
  assert (r3 <> 0) by (intros E; apply Hne; now apply ptl_of_zero_iff).
  rewrite ps_u_closed. destruct Hr3.
  assert (0 < ps_s p * r3) by (apply Rmult_lt_0_compat; lra). lra.
Qed.

End ObservableFacts.

(** ** Facts about the Monte Carlo sum *)

Section AccumulatorFacts.

Variable rng_state : Type.
Variable uniform : rng_state -> R * rng_state.
Variable fdiv : R -> R -> R.

Lemma bind_inr {A B : Type} (m : M rng_state A) (f : A -> M rng_state B)
    (g g' : rng_state) (a : A) (w : list warning) :
  m g = mk_run (inr a) g' w ->
  bind m f g
  = mk_run (value (f a g')) (rng_after (f a g')) (w ++ warnings (f a g')).
Proof. intros E. unfold bind. now rewrite E. Qed.

Lemma bind_run {A B : Type} (m : M rng_state A) (f : A -> M rng_state B)
    (g : rng_state) :
  bind m f g
  = match value (m g) with
    | inl e => mk_run (inl e) (rng_after (m g)) (warnings (m g))
    | inr a =>
        mk_run (value (f a (rng_after (m g))))
               (rng_after (f a (rng_after (m g))))
               (warnings (m g) ++ warnings (f a (rng_after (m g))))
    end.
Proof. reflexivity. Qed.

(** At [pT = 0] both quotients are divisions by zero: numpy warns twice,
    nothing is raised and the rapidities are infinite.  No rounded
    quotient is involved. *)
Lemma build_observables_zero (p : ps_point) (g : rng_state) :
  ptl_of p = 0 -> 0 < mll_of p ->
  build_observables fdiv p g
  = mk_run (inr (mk_observables 0 (mll_of p) (yll_of p) PosInf PosInf)) g
           [DivideByZero; DivideByZero].
Proof.
  intros E Hm.
  unfold build_observables, bind, warned, raised, np_divide. rewrite E.
  destruct (Req_dec_T 0 0) as [_ | Hne]; [|now contradiction Hne].
  destruct (Req_dec_T (0.5 * mll_of p) 0) as [Hz | _]; [lra|].
  destruct (Rlt_dec 0 (0.5 * mll_of p)) as [_ | Hn]; [|exfalso; apply Hn; lra].
  reflexivity.
Qed.

(** Away from [pT = 0] the outcome turns on the computed quotient: below
    1 [math.acosh] raises its domain error, and otherwise the rapidities
    are finite and nothing is warned. *)
Lemma build_observables_rounded (p : ps_point) (g : rng_state) :
  ptl_of p <> 0 ->
  let q := fdiv (0.5 * mll_of p) (ptl_of p) in
  build_observables fdiv p g
  = if Rlt_dec q 1
    then mk_run (inl ValueError) g []
    else mk_run
           (inr (mk_observables (ptl_of p) (mll_of p) (yll_of p)
                   (Finite (Rabs (yll_of p + acosh q)))
                   (Finite (Rabs (yll_of p - acosh q)))))
           g [].
Proof.
  intros Hne q.
  unfold build_observables, bind, warned, raised, np_divide, math_acosh.
  destruct (Req_dec_T (ptl_of p) 0) as [Hz | _]; [contradiction|]. simpl.
  fold q. destruct (Rlt_dec q 1); reflexivity.
Qed.

(** Building the observables draws nothing from the generator. *)
Lemma build_observables_state (p : ps_point) (g : rng_state) :
  rng_after (build_observables fdiv p g) = g.
Proof.
  unfold build_observables, bind, warned, raised. simpl.
  destruct (np_divide fdiv (0.5 * mll_of p) (ptl_of p)) as [q w]. simpl.
  destruct (math_acosh q); reflexivity.
Qed.

(** One trial, whatever it draws: the exception of [math.acosh] if it
    raises, and otherwise the [TypeError] of [jacobian * None], after
    three draws.  [fill] is never reached. *)
Lemma fill_trial_raises (grid : Grid) (calls : Z) (g : rng_state) :
  let built :=
    build_observables fdiv (drawn_point uniform g) (after_trial uniform g) in
  value (fill_trial uniform fdiv grid calls g)
  = match value built with
    | inl e => inl e
    | inr _ => inl TypeError
    end
  /\ rng_after (fill_trial uniform fdiv grid calls g) = after_trial uniform g
  /\ warnings (fill_trial uniform fdiv grid calls g) = warnings built.
Proof.
  intros built. unfold fill_trial.
  rewrite (bind_inr _ _ g (after_trial uniform g) (drawn_point uniform g) [])
    by apply hadronic_ps_gen_run.
  rewrite bind_run. fold built.
  pose proof (build_observables_state (drawn_point uniform g)
                (after_trial uniform g)) as Hs. fold built in Hs.
  destruct (value built) as [e | o]; cbn [value rng_after warnings app].
  - now repeat split.
  - rewrite Hs. cbn. rewrite app_nil_r. now repeat split.
Qed.

(** A loop of at least one iteration ends in its first trial. *)
Lemma fill_loop_first_trial (n : nat) (grid : Grid) (calls : Z)
    (g : rng_state) :
  fill_loop uniform fdiv (S n) grid calls g
  = mk_run (value (fill_loop uniform fdiv (S n) grid calls g))
           (after_trial uniform g)
           (warnings (fill_trial uniform fdiv grid calls g))
  /\ exists e,
       value (fill_loop uniform fdiv (S n) grid calls g) = inl e
       /\ value (fill_trial uniform fdiv grid calls g) = inl e.
Proof.
  destruct (fill_trial_raises grid calls g) as (Hv & Hs & _).
  cbn [fill_loop]. rewrite bind_run.
  destruct (value (build_observables fdiv (drawn_point uniform g)
                     (after_trial uniform g))) as [e | o];
    rewrite Hv, Hs; (split; [reflexivity | eexists; split; reflexivity]).
Qed.

End AccumulatorFacts.

Lemma counting_uniform_range (n : nat) : unit_draw (fst (counting_uniform n)).
Proof.
  unfold counting_uniform, unit_draw; simpl.
  destruct (Nat.eqb n 2); lra.
Qed.

Lemma counting_point_ptl_zero : ptl_of (drawn_point counting_uniform 0%nat) = 0.
Proof.
  unfold drawn_point.
  apply ptl_of_zero_iff;
    [exact valid_10_7000 | apply counting_uniform_range | reflexivity].
Qed.

Lemma np_arange_bins :
  np_arange 0 2.4 0.1
  = [0.0; 0.1; 0.2; 0.3; 0.4; 0.5; 0.6; 0.7; 0.8; 0.9; 1.0; 1.1;
     1.2; 1.3; 1.4; 1.5; 1.6; 1.7; 1.8; 1.9; 2.0; 2.1; 2.2; 2.3]%Q.
Proof. vm_compute. reflexivity. Qed.

(** In binary64 the quotient is just below 24, so numpy too takes 24
    values: the rational model of [np.arange] agrees with it here. *)
Lemma arange_quotient_binary64_ceiling :
  (23 <? arange_quotient_binary64)%float = true
  /\ (arange_quotient_binary64 <=? 24)%float = true
  /\ Qceiling ((2.4 - 0) / 0.1) = 24%Z.
Proof. vm_compute. repeat split. Qed.

Lemma Rltb_false (x y : R) : y <= x -> Rltb x y = false.
Proof.
  intros Hle. unfold Rltb. destruct (Rlt_dec x y); [lra | reflexivity].
Qed.

Lemma np_arange_bins_below :
  Forall (fun q => Q2R q <= 2.3) (np_arange 0 2.4 0.1).
Proof.
  rewrite np_arange_bins.
  repeat (constructor; [unfold Q2R; simpl; lra|]). constructor.
Qed.

Lemma in_bin_above_last_limit (i : nat) (x : R) :
  2.3 <= x -> in_bin (np_arange 0 2.4 0.1) i x = false.
Proof.
  intros Hx. unfold in_bin.
  rewrite (Rltb_false x); [apply andb_false_r|].
  destruct (nth_in_or_default (S i) (np_arange 0 2.4 0.1) 0%Q) as [Hin | ->].
  - pose proof np_arange_bins_below as Hall.
    rewrite Forall_forall in Hall. specialize (Hall _ Hin). lra.
  - unfold Q2R; simpl. lra.
Qed.

Lemma histogram_no_fills (bins : list Q) (v : R) :
  In v (histogram (Grid_create bins)) -> v = 0.
Proof.
  unfold histogram. rewrite in_map_iff. intros (i & <- & _). reflexivity.
Qed.

(** ** The claims on the Monte Carlo sum *)

(** C3, as the code has it.  The grid that [generate_grid] creates, and
    returns when the loop has nothing to do, has for limits the 24 values
    0.0, 0.1, ..., 2.3 of [np.arange(0, 2.4, 0.1)]: they delimit 23 bins,
    the histogram has 23 entries in bin order, and an observable in
    [[2.3, 2.4)] lies in no bin. *)
Theorem generate_grid_bin_limits (rng_state : Type)
    (uniform : rng_state -> R * rng_state) (fdiv : R -> R -> R)
    (calls : Z) (g : rng_state) :
  (calls <= 0)%Z ->
  exists grid,
    value (generate_grid uniform fdiv calls g) = inr grid
    /\ grid = Grid_create (np_arange 0 2.4 0.1)
    /\ bin_limits grid
       = [0.0; 0.1; 0.2; 0.3; 0.4; 0.5; 0.6; 0.7; 0.8; 0.9; 1.0; 1.1;
          1.2; 1.3; 1.4; 1.5; 1.6; 1.7; 1.8; 1.9; 2.0; 2.1; 2.2; 2.3]%Q
    /\ length (bin_limits grid) = 24%nat
    /\ Grid_bins grid = 23%nat
    /\ length (histogram grid) = 23%nat
    /\ forall i x, 2.3 <= x -> in_bin (bin_limits grid) i x = false.
Proof.
  intros Hle. unfold generate_grid, fill_grid.
  replace (Z.to_nat calls) with 0%nat by lia.
  exists (Grid_create (np_arange 0 2.4 0.1)).
  assert (Hb : bin_limits (Grid_create (np_arange 0 2.4 0.1))
               = np_arange 0 2.4 0.1) by reflexivity.
  assert (Hn : Grid_bins (Grid_create (np_arange 0 2.4 0.1)) = 23%nat)
    by (unfold Grid_bins; rewrite Hb, np_arange_bins; reflexivity).
  split; [reflexivity|]. split; [reflexivity|].
  split; [rewrite Hb; apply np_arange_bins|].
  split; [rewrite Hb, np_arange_bins; reflexivity|].
  split; [exact Hn|].
  split.
  - unfold histogram. now rewrite length_map, length_seq.
  - intros i x Hx. rewrite Hb. now apply in_bin_above_last_limit.
Qed.

Lemma generate_grid_bin_limits_witness :
  (0 <= 0)%Z
  /\ exists grid,
       value (generate_grid counting_uniform Rdiv 0 0%nat) = inr grid
       /\ Grid_bins grid = 23%nat.
Proof.
  split; [lia|].
  destruct (generate_grid_bin_limits nat counting_uniform Rdiv 0 0%nat
              (Z.le_refl 0)) as (grid & Hv & _ & _ & _ & Hn & _).
  exists grid. split; [exact Hv | exact Hn].
Defined.

(** C7, as the code has it.  A trial builds the lepton rapidities, and
    with them the quotient [0.5 * mll / ptl], before the condition of the
    cut is looked at, and nothing excludes [pT = 0] beforehand: at
    [pT = 0] the division by zero is performed, numpy warns twice, nothing
    is raised there and the rapidities are infinite, not [nan].  The
    trial, like every trial, ends without a call of [fill]: no weight is
    accumulated from it. *)
Theorem fill_grid_rapidities_before_cuts (rng_state : Type)
    (uniform : rng_state -> R * rng_state) (fdiv : R -> R -> R)
    (grid : Grid) (calls : Z) (g : rng_state) :
  ptl_of (drawn_point uniform g) = 0 ->
  let p := drawn_point uniform g in
  build_observables fdiv p (after_trial uniform g)
  = mk_run (inr (mk_observables 0 (mll_of p) (yll_of p) PosInf PosInf))
           (after_trial uniform g) [DivideByZero; DivideByZero]
  /\ warnings (fill_trial uniform fdiv grid calls g)
     = [DivideByZero; DivideByZero]
  /\ (forall grid', value (fill_trial uniform fdiv grid calls g) <> inr grid')
  /\ forall grid0 calls0 g0 grid',
       value (fill_trial uniform fdiv grid0 calls0 g0) <> inr grid'.
Proof.
  intros Hz p.
  assert (Hm : 0 < mll_of p) by (apply mll_of_pos, valid_10_7000).
  pose proof (build_observables_zero rng_state fdiv p (after_trial uniform g)
                Hz Hm) as Hb.
  assert (Hno : forall grid0 calls0 g0 grid',
            value (fill_trial uniform fdiv grid0 calls0 g0) <> inr grid').
  { intros grid0 calls0 g0 grid' H.
    destruct (fill_trial_raises rng_state uniform fdiv grid0 calls0 g0)
      as (Hv & _).
    rewrite Hv in H.
    destruct (value (build_observables fdiv (drawn_point uniform g0)
                       (after_trial uniform g0))); discriminate H. }
  split; [exact Hb|]. split; [|split; [apply Hno | exact Hno]].
  destruct (fill_trial_raises rng_state uniform fdiv grid calls g)
    as (_ & _ & Hw).
  rewrite Hw. fold p. now rewrite Hb.
Qed.

Lemma fill_grid_rapidities_before_cuts_witness :
  ptl_of (drawn_point counting_uniform 0%nat) = 0
  /\ warnings (fill_trial counting_uniform Rdiv
                 (Grid_create (np_arange 0 2.4 0.1)) 1 0%nat)
     = [DivideByZero; DivideByZero].
Proof.
  split; [exact counting_point_ptl_zero|].
  apply (fill_grid_rapidities_before_cuts nat counting_uniform Rdiv
           (Grid_create (np_arange 0 2.4 0.1)) 1 0%nat
           counting_point_ptl_zero).
Defined.

(** C7 as stated fails: in the trial whose third draw is 0 the quotient
    [0.5 * mll / ptl] is evaluated with [ptl = 0]; no cut has excluded
    the point. *)
Lemma fill_trial_divides_by_zero :
  (forall n, unit_draw (fst (counting_uniform n)))
  /\ ptl_of (drawn_point counting_uniform 0%nat) = 0
  /\ In DivideByZero
       (warnings (fill_trial counting_uniform Rdiv
                    (Grid_create (np_arange 0 2.4 0.1)) 1 0%nat)).
Proof.
  split; [exact counting_uniform_range|].
  split; [exact counting_point_ptl_zero|].
  destruct (fill_trial_raises nat counting_uniform Rdiv
              (Grid_create (np_arange 0 2.4 0.1)) 1 0%nat) as (_ & _ & Hw).
  rewrite Hw.
  rewrite (build_observables_zero nat Rdiv _ _ counting_point_ptl_zero)
    by (apply mll_of_pos, valid_10_7000).
  now left.
Qed.

(** C8, as the code has it.  Nothing is validated and no error is
    raised: for [calls <= 0] the loop body is never entered, so no draw
    is made, [fill] is never called, and the grid over the fixed limits
    is returned with every bin at zero. *)
Theorem generate_grid_nonpositive_calls (rng_state : Type)
    (uniform : rng_state -> R * rng_state) (fdiv : R -> R -> R)
    (calls : Z) (g : rng_state) :
  (calls <= 0)%Z ->
  generate_grid uniform fdiv calls g
  = mk_run (inr (Grid_create (np_arange 0 2.4 0.1))) g []
  /\ fills (Grid_create (np_arange 0 2.4 0.1)) = []
  /\ forall v, In v (histogram (Grid_create (np_arange 0 2.4 0.1))) -> v = 0.
Proof.
  intros Hle. unfold generate_grid, fill_grid.
  replace (Z.to_nat calls) with 0%nat by lia.
  split; [reflexivity | split; [reflexivity | apply histogram_no_fills]].
Qed.

Lemma generate_grid_nonpositive_calls_witness :
  (-5 <= 0)%Z
  /\ generate_grid counting_uniform Rdiv (-5) 0%nat
     = mk_run (inr (Grid_create (np_arange 0 2.4 0.1))) 0%nat [].
Proof.
  split; [lia|].
  apply (generate_grid_nonpositive_calls nat counting_uniform Rdiv
           (-5) 0%nat). lia.
Defined.

(** C8 as stated fails: with [calls = 0] (and with [calls = -5])
    [generate_grid] raises nothing and returns the empty grid. *)
Lemma generate_grid_zero_calls_returns :
  value (generate_grid counting_uniform Rdiv 0 0%nat)
  = inr (Grid_create (np_arange 0 2.4 0.1))
  /\ value (generate_grid counting_uniform Rdiv (-5) 0%nat)
     = inr (Grid_create (np_arange 0 2.4 0.1))
  /\ ~ (exists e,
          value (generate_grid counting_uniform Rdiv 0 0%nat)
          = inl e).
Proof.
  split; [reflexivity | split; [reflexivity|]].
  intros (e & He). discriminate He.
Qed.

(** * Further properties of the sampler *)

Section SamplerRanges.

Variables mmin mmax : R.
Hypothesis Hvalid : valid_energies mmin mmax.

Local Abbreviation L := (ln (tau0_of mmin mmax)).

Lemma tau0_smax : tau0_of mmin mmax * (mmax * mmax) = mmin * mmin.
Proof.
  destruct Hvalid. unfold tau0_of. field. lra.
Qed.

Lemma yll_of_closed (r1 r2 r3 : R) :
  yll_of (hadronic_ps_point mmin mmax r1 r2 r3)
  = 0.5 * ((1 - 2 * r2) * (r1 * L)).
Proof.
  unfold yll_of. rewrite ps_x1_exp, ps_x2_exp by assumption.
  unfold Rdiv. rewrite <- exp_Ropp, <- exp_plus, ln_exp. lra.
Qed.

Lemma ln_mmax_over_mmin : ln (mmax / mmin) = - (0.5 * L).
Proof.
  destruct Hvalid as [H0 H1].
  assert (Hq : 0 < mmin / mmax) by (apply Rdiv_lt_0_compat; lra).
  assert (E : tau0_of mmin mmax = (mmin / mmax) * (mmin / mmax))
    by (unfold tau0_of; field; lra).
  rewrite E, ln_mult by assumption.
  replace (mmax / mmin) with (/ (mmin / mmax)) by (field; lra).
  rewrite ln_Rinv by assumption. lra.
Qed.

End SamplerRanges.

(** X1.  The partonic energy stays in the window it is sampled for:
    [smin < s <= smax], with [s = smax] at [r1 = 0] and [s] strictly
    decreasing in [r1]; the invariant mass [sqrt s] lies in
    [(mmin, mmax]]. *)
Theorem hadronic_ps_gen_s_window (mmin mmax r1 r2 r3 : R) :
  valid_energies mmin mmax ->
  unit_draw r1 ->
  let p := hadronic_ps_point mmin mmax r1 r2 r3 in
  mmin * mmin < ps_s p <= mmax * mmax
  /\ mmin < mll_of p <= mmax
  /\ ps_s (hadronic_ps_point mmin mmax 0 r2 r3) = mmax * mmax
  /\ forall r1' r2' r3', r1 < r1' ->
       ps_s (hadronic_ps_point mmin mmax r1' r2' r3') < ps_s p.
Proof.
  intros Hv [H0 H1] p. subst p.
  pose proof (ln_tau0_neg mmin mmax Hv) as HL.
  pose proof (tau0_pos mmin mmax Hv) as Hpos.
  pose proof (smax_pos mmin mmax Hv) as Hsmax.
  pose proof (tau0_smax mmin mmax Hv) as Hts.
  set (L := ln (tau0_of mmin mmax)) in *.
  assert (Hlo : tau0_of mmin mmax < exp (r1 * L)).
  { rewrite <- (exp_ln (tau0_of mmin mmax)) at 1 by assumption.
    fold L. apply exp_increasing.
    assert (0 < (1 - r1) * (- L)) by (apply Rmult_lt_0_compat; lra). lra. }
  assert (Hhi : exp (r1 * L) <= 1).
  { apply exp_nonpos_le_1.
    assert (0 <= r1 * (- L)) by (apply Rmult_le_pos; lra). lra. }
  assert (Hs : mmin * mmin < ps_s (hadronic_ps_point mmin mmax r1 r2 r3)
               <= mmax * mmax).
  { rewrite ps_s_exp. fold L. split.
    - rewrite <- Hts. apply Rmult_lt_compat_r; assumption.
    - rewrite <- (Rmult_1_l (mmax * mmax)) at 2.
      apply Rmult_le_compat_r; lra. }
  destruct Hv as [Hm0 Hm1].
  split; [exact Hs|]. split; [|split].
  - unfold mll_of. split.
    + rewrite <- (sqrt_square mmin) at 1 by lra. apply sqrt_lt_1; nra.
    + rewrite <- (sqrt_square mmax) at 2 by lra. apply sqrt_le_1; nra.
  - rewrite ps_s_exp, Rmult_0_l, exp_0. lra.
  - intros r1' r2' r3' Hlt. rewrite !ps_s_exp.
    apply Rmult_lt_compat_r; [assumption|]. apply exp_increasing.
    fold L. assert (0 < (r1' - r1) * (- L)) by (apply Rmult_lt_0_compat; lra).
    lra.
Qed.

Lemma hadronic_ps_gen_s_window_witness :
  (valid_energies 10 7000 /\ unit_draw (1/2))
  /\ 10 * 10 < ps_s (hadronic_ps_point 10 7000 (1/2) (1/2) (1/2)) <= 7000 * 7000.
Proof.
  assert (Hv : valid_energies 10 7000) by (unfold valid_energies; lra).
  assert (Hr : unit_draw (1/2)) by (unfold unit_draw; lra).
  split; [split; assumption|].
  apply (hadronic_ps_gen_s_window 10 7000 (1/2) (1/2) (1/2) Hv Hr).
Defined.

(** X2.  The momentum fractions factorise the partonic energy:
    [x1 * x2 = tau0 ^ r1] and [s = x1 * x2 * smax]. *)
Theorem hadronic_ps_gen_factorisation (mmin mmax r1 r2 r3 : R) :
  valid_energies mmin mmax ->
  let p := hadronic_ps_point mmin mmax r1 r2 r3 in
  ps_x1 p * ps_x2 p = Rpower (tau0_of mmin mmax) r1
  /\ ps_s p = ps_x1 p * ps_x2 p * (mmax * mmax).
Proof.
  intros Hv p. subst p.
  assert (E : ps_x1 (hadronic_ps_point mmin mmax r1 r2 r3)
              * ps_x2 (hadronic_ps_point mmin mmax r1 r2 r3)
              = Rpower (tau0_of mmin mmax) r1).
  { rewrite ps_x1_exp, ps_x2_exp by assumption.
    rewrite <- exp_plus. unfold Rpower. f_equal. ring. }
  split; [exact E|]. rewrite E. reflexivity.
Qed.

Lemma hadronic_ps_gen_factorisation_witness :
  valid_energies 10 7000
  /\ let p := hadronic_ps_point 10 7000 (1/2) (1/4) (1/2) in
     ps_s p = ps_x1 p * ps_x2 p * (7000 * 7000).
Proof.
  assert (Hv : valid_energies 10 7000) by (unfold valid_energies; lra).
  split; [exact Hv|].
  apply (hadronic_ps_gen_factorisation 10 7000 (1/2) (1/4) (1/2) Hv).
Defined.

(** X3.  The transverse momentum is well defined: the argument of
    [np.sqrt] is [s r3 (1 - r3) >= 0], so that [pT^2 = s r3 (1 - r3)] and
    [pT >= 0], with [pT = 0] exactly at [r3 = 0]. *)
Theorem ptl_sqrt_argument (mmin mmax r1 r2 r3 : R) :
  valid_energies mmin mmax ->
  unit_draw r3 ->
  let p := hadronic_ps_point mmin mmax r1 r2 r3 in
  ps_t p * ps_u p / ps_s p = ps_s p * (r3 * (1 - r3))
  /\ 0 <= ps_t p * ps_u p / ps_s p
  /\ ptl_of p * ptl_of p = ps_s p * (r3 * (1 - r3))
  /\ 0 <= ptl_of p
  /\ (ptl_of p = 0 <-> r3 = 0).
Proof.
  intros Hv Hr p. subst p.
  set (p := hadronic_ps_point mmin mmax r1 r2 r3).
  pose proof (ps_s_pos mmin mmax Hv r1 r2 r3) as Hs. fold p in Hs.
  pose proof (tu_over_s mmin mmax r1 r2 r3 Hv) as Htu. fold p in Htu.
  split; [exact Htu|]. split; [|split; [|split]].
  - rewrite Htu. destruct Hr as [H0 H1].
    apply Rmult_le_pos; [lra | apply Rmult_le_pos; lra].
  - exact (ptl_of_sq mmin mmax r1 r2 r3 Hv Hr).
  - apply ptl_of_nonneg.
  - exact (ptl_of_zero_iff mmin mmax r1 r2 r3 Hv Hr).
Qed.

Lemma ptl_sqrt_argument_witness :
  (valid_energies 10 7000 /\ unit_draw (1/4))
  /\ let p := hadronic_ps_point 10 7000 (1/2) (1/2) (1/4) in
     ptl_of p * ptl_of p = ps_s p * (1/4 * (1 - 1/4)).
Proof.
  assert (Hv : valid_energies 10 7000) by (unfold valid_energies; lra).
  assert (Hr : unit_draw (1/4)) by (unfold unit_draw; lra).
  split; [split; assumption|].
  apply (ptl_sqrt_argument 10 7000 (1/2) (1/2) (1/4) Hv Hr).
Defined.

(** X4.  The domain error of [math.acosh] can be reached.  In binary64,
    for [s = 3785.6487798463463], inside the window of the sampler, and
    [r3 = 0.5], the statements that compute [t], [u], [ptl] and [mll]
    give [ptl > 0.5 * mll], and the quotient [0.5 * mll / ptl] is below
    1. *)
Theorem acosh_argument64_below_one :
  let s := 3785.6487798463463%float in
  let r3 := 0.5%float in
  ((100 <? s) && (s <=? 49000000) && (0 <=? r3) && (r3 <? 1))%float = true
  /\ (0.5 * mll64 s <? ptl64 s r3)%float = true
  /\ (acosh_argument64 s r3 <? 1)%float = true.
Proof. vm_compute. repeat split. Qed.


(** X5.  Replacing the draw [r2] by [1 - r2] exchanges the two momentum
    fractions and changes nothing else: [s], [t], [u] and the jacobian
    are the same and the pair rapidity changes sign. *)
Theorem hadronic_ps_gen_exchange (mmin mmax r1 r2 r3 : R) :
  valid_energies mmin mmax ->
  let p := hadronic_ps_point mmin mmax r1 r2 r3 in
  let p' := hadronic_ps_point mmin mmax r1 (1 - r2) r3 in
  ps_x1 p' = ps_x2 p /\ ps_x2 p' = ps_x1 p
  /\ ps_s p' = ps_s p /\ ps_t p' = ps_t p /\ ps_u p' = ps_u p
  /\ ps_jacobian p' = ps_jacobian p
  /\ yll_of p' = - yll_of p.
Proof.
  intros Hv p p'. subst p p'.
  rewrite !yll_of_closed, !ps_x1_exp, !ps_x2_exp by assumption.
  repeat split; try reflexivity; try (f_equal; ring); lra.
Qed.

Lemma hadronic_ps_gen_exchange_witness :
  valid_energies 10 7000
  /\ ps_x1 (hadronic_ps_point 10 7000 (1/2) (1 - 1/4) (1/2))
     = ps_x2 (hadronic_ps_point 10 7000 (1/2) (1/4) (1/2)).
Proof.
  assert (Hv : valid_energies 10 7000) by (unfold valid_energies; lra).
  split; [exact Hv|].
  apply (hadronic_ps_gen_exchange 10 7000 (1/2) (1/4) (1/2) Hv).
Defined.

(** X6.  The pair rapidity respects the kinematic limit
    [|yll| <= 0.5 ln(smax / s)], and so stays below [ln(mmax / mmin)]; it
    vanishes at [r2 = 1/2]. *)
Theorem yll_kinematic_limit (mmin mmax r1 r2 r3 : R) :
  valid_energies mmin mmax ->
  unit_draw r1 -> unit_draw r2 ->
  let p := hadronic_ps_point mmin mmax r1 r2 r3 in
  Rabs (yll_of p) <= 0.5 * ln (mmax * mmax / ps_s p)
  /\ Rabs (yll_of p) < ln (mmax / mmin)
  /\ yll_of (hadronic_ps_point mmin mmax r1 (1 / 2) r3) = 0.
Proof.
  intros Hv [H1 H1'] [H2 H2'] p. subst p.
  pose proof (ln_tau0_neg mmin mmax Hv) as HL.
  pose proof (smax_pos mmin mmax Hv) as Hsmax.
  rewrite !yll_of_closed, (ln_mmax_over_mmin mmin mmax Hv), ps_s_exp.
  set (L := ln (tau0_of mmin mmax)) in *.
  assert (Hln : ln (mmax * mmax / (exp (r1 * L) * (mmax * mmax))) = - (r1 * L)).
  { pose proof (exp_pos (r1 * L)) as He.
    set (S := mmax * mmax) in *. set (e := exp (r1 * L)) in *.
    replace (S / (e * S)) with (/ e) by (field; split; lra).
    unfold e. rewrite <- exp_Ropp. apply ln_exp. }
  rewrite Hln.
  assert (Ha : 0 <= r1 * (- L)) by (apply Rmult_le_pos; lra).
  assert (Hb : 0 < (1 - r1) * (- L)) by (apply Rmult_lt_0_compat; lra).
  assert (Hc : 0 <= r2 * (r1 * (- L))) by (apply Rmult_le_pos; lra).
  assert (Hd : 0 <= (1 - r2) * (r1 * (- L))) by (apply Rmult_le_pos; lra).
  split; [|split].
  - apply Rabs_le. split; lra.
  - apply Rabs_def1; lra.
  - lra.
Qed.

Lemma yll_kinematic_limit_witness :
  (valid_energies 10 7000 /\ unit_draw (1/2) /\ unit_draw (1/4))
  /\ Rabs (yll_of (hadronic_ps_point 10 7000 (1/2) (1/4) (1/2)))
     < ln (7000 / 10).
Proof.
  assert (Hv : valid_energies 10 7000) by (unfold valid_energies; lra).
  assert (Hr : unit_draw (1/2)) by (unfold unit_draw; lra).
  assert (Hr' : unit_draw (1/4)) by (unfold unit_draw; lra).
  split; [split; [assumption | split; assumption]|].
  apply (yll_kinematic_limit 10 7000 (1/2) (1/4) (1/2) Hv Hr Hr').
Defined.

(** X7.  The invariants the grid is binned in determine the momentum
    fractions: [x1^2 = (s / smax) exp(2 yll)] and
    [x2^2 = (s / smax) exp(-2 yll)]. *)
Theorem fractions_from_observables (mmin mmax r1 r2 r3 : R) :
  valid_energies mmin mmax ->
  let p := hadronic_ps_point mmin mmax r1 r2 r3 in
  ps_x1 p * ps_x1 p = ps_s p / (mmax * mmax) * exp (2 * yll_of p)
  /\ ps_x2 p * ps_x2 p = ps_s p / (mmax * mmax) * exp (- (2 * yll_of p)).
Proof.
  intros Hv p. subst p.
  pose proof (smax_pos mmin mmax Hv) as Hsmax.
  rewrite yll_of_closed, ps_x1_exp, ps_x2_exp, ps_s_exp by assumption.
  set (L := ln (tau0_of mmin mmax)).
  set (S := mmax * mmax) in *.
  replace (exp (r1 * L) * S / S) with (exp (r1 * L)) by (field; lra).
  rewrite <- !exp_plus. split; f_equal; lra.
Qed.

Lemma fractions_from_observables_witness :
  valid_energies 10 7000
  /\ let p := hadronic_ps_point 10 7000 (1/2) (1/4) (1/2) in
     ps_x1 p * ps_x1 p = ps_s p / (7000 * 7000) * exp (2 * yll_of p).
Proof.
  assert (Hv : valid_energies 10 7000) by (unfold valid_energies; lra).
  split; [exact Hv|].
  apply (fractions_from_observables 10 7000 (1/2) (1/4) (1/2) Hv).
Defined.

(** * Further properties of the Monte Carlo sum *)

(** X8.  With [calls >= 1], [fill_grid] does not return: the first trial
    ends in an exception, the [ValueError] of [math.acosh] if that raises
    and otherwise the [TypeError] of [jacobian * None], after exactly
    three draws and before any call of [fill]. *)
Theorem fill_grid_raises_in_first_trial (rng_state : Type)
    (uniform : rng_state -> R * rng_state) (fdiv : R -> R -> R)
    (grid : Grid) (calls : Z) (g : rng_state) :
  (1 <= calls)%Z ->
  let built :=
    build_observables fdiv (drawn_point uniform g) (after_trial uniform g) in
  value (fill_grid uniform fdiv grid calls g)
  = match value built with
    | inl e => inl e
    | inr _ => inl TypeError
    end
  /\ (forall grid', value (fill_grid uniform fdiv grid calls g) <> inr grid')
  /\ rng_after (fill_grid uniform fdiv grid calls g) = after_trial uniform g
  /\ warnings (fill_grid uniform fdiv grid calls g) = warnings built.
Proof.
  intros Hc built. unfold fill_grid.
  destruct (Z.to_nat calls) as [|n] eqn:En; [lia|].
  destruct (fill_loop_first_trial rng_state uniform fdiv n grid calls g)
    as (Hrun & e & Hl & Ht).
  destruct (fill_trial_raises rng_state uniform fdiv grid calls g)
    as (Hv & _ & Hw).
  fold built in Hv, Hw.
  assert (Hval : value (fill_loop uniform fdiv (S n) grid calls g)
                 = match value built with
                   | inl e => inl e
                   | inr _ => inl TypeError
                   end) by (rewrite Hl, <- Ht; exact Hv).
  split; [exact Hval|]. split; [|split].
  - intros grid' H. rewrite Hl in H. discriminate H.
  - rewrite Hrun. reflexivity.
  - rewrite Hrun. cbn [warnings]. exact Hw.
Qed.

Lemma fill_grid_raises_in_first_trial_witness :
  (1 <= 1)%Z
  /\ forall grid',
       value (fill_grid counting_uniform Rdiv
                (Grid_create (np_arange 0 2.4 0.1)) 1 0%nat) <> inr grid'.
Proof.
  split; [lia|].
  apply (fill_grid_raises_in_first_trial nat counting_uniform Rdiv
           (Grid_create (np_arange 0 2.4 0.1)) 1 0%nat (Z.le_refl 1)).
Defined.


(** X10.  The jacobian is bounded in terms of [r1] alone:
    [tau0 L^2 r1 4 pi <= jacobian <= L^2 r1 4 pi] with [L = ln tau0], and
    so it stays below [4 pi L^2] for every draw. *)
Theorem hadronic_ps_gen_jacobian_bounds (mmin mmax r1 r2 r3 : R) :
  valid_energies mmin mmax ->
  unit_draw r1 ->
  let p := hadronic_ps_point mmin mmax r1 r2 r3 in
  let tau0 := tau0_of mmin mmax in
  tau0 * (ln tau0 * ln tau0) * r1 * (4 * PI) <= ps_jacobian p
  /\ ps_jacobian p <= ln tau0 * ln tau0 * r1 * (4 * PI)
  /\ ps_jacobian p < ln tau0 * ln tau0 * (4 * PI).
Proof.
  intros Hv [H0 H1] p tau0. subst p tau0.
  pose proof (ln_tau0_neg mmin mmax Hv) as HL.
  pose proof (tau0_pos mmin mmax Hv) as Hpos.
  pose proof PI_RGT_0 as Hpi.
  rewrite ps_jacobian_closed.
  set (L := ln (tau0_of mmin mmax)) in *.
  assert (Hlo : tau0_of mmin mmax <= exp (r1 * L)).
  { rewrite <- (exp_ln (tau0_of mmin mmax)) at 1 by assumption.
    fold L. apply exp_le_mono.
    assert (0 <= (1 - r1) * (- L)) by (apply Rmult_le_pos; lra). lra. }
  assert (Hhi : exp (r1 * L) <= 1).
  { apply exp_nonpos_le_1.
    assert (0 <= r1 * (- L)) by (apply Rmult_le_pos; lra). lra. }
  assert (HLL : 0 < L * L) by nra.
  assert (Hk : 0 < L * L * (4 * PI)) by (apply Rmult_lt_0_compat; lra).
  assert (Hc : 0 <= L * L * r1 * (4 * PI)).
  { apply Rmult_le_pos; [apply Rmult_le_pos|]; lra. }
  set (c := L * L * r1 * (4 * PI)) in *.
  replace (tau0_of mmin mmax * (L * L) * r1 * (4 * PI))
    with (tau0_of mmin mmax * c) by (unfold c; ring).
  replace (exp (r1 * L) * (L * L) * r1 * (4 * PI))
    with (exp (r1 * L) * c) by (unfold c; ring).
  assert (Hc1 : c < L * L * (4 * PI)).
  { unfold c. replace (L * L * r1 * (4 * PI)) with (L * L * (4 * PI) * r1) by ring.
    rewrite <- (Rmult_1_r (L * L * (4 * PI))) at 2.
    apply Rmult_lt_compat_l; lra. }
  assert (Hm1 : tau0_of mmin mmax * c <= exp (r1 * L) * c)
    by (apply Rmult_le_compat_r; lra).
  assert (Hm2 : exp (r1 * L) * c <= 1 * c)
    by (apply Rmult_le_compat_r; lra).
  repeat split; lra.
Qed.

Lemma hadronic_ps_gen_jacobian_bounds_witness :
  (valid_energies 10 7000 /\ unit_draw (1/2))
  /\ ps_jacobian (hadronic_ps_point 10 7000 (1/2) (1/2) (1/2))
     < ln (tau0_of 10 7000) * ln (tau0_of 10 7000) * (4 * PI).
Proof.
  assert (Hv : valid_energies 10 7000) by (unfold valid_energies; lra).
  assert (Hr : unit_draw (1/2)) by (unfold unit_draw; lra).
  split; [split; assumption|].
  apply (hadronic_ps_gen_jacobian_bounds 10 7000 (1/2) (1/2) (1/2) Hv Hr).
Defined.

